(* Verification of the token lifecycle manager of ApiAutoTest-unittest
   (src/core/token_handler.py, src/config/handle_token_config.py).

   Shallow embedding:
   - wall-clock time (time.time()) is a Z timestamp supplied per call;
   - a Python exception is a value of [exn]; fallible code returns [result];
   - Python str values are byte strings ([string]); str.encode() is the
     identity on them (exact for ASCII tokens);
   - functools.lru_cache on a method keys its cache on the argument tuple
     (self,), so for one object the cache is one optional entry. *)

From Stdlib Require Import ZArith List String Ascii Bool Lia.
Import ListNotations.
Open Scope Z_scope.

(* ------------------------------------------------------------------ *)
(** * Python exceptions and results *)

Inductive exn : Type :=
| NotImplementedError
| AttributeError (name : string)
| ValueError
| ClientError            (* aiohttp.ClientError and its subclasses *)
| TimeoutError           (* asyncio.TimeoutError raised by the timeout *)
| OtherError.

Inductive result (A : Type) : Type :=
| Ok (a : A)
| Raise (e : exn).
Arguments Ok {A} a.
Arguments Raise {A} e.

Definition bind {A B} (m : result A) (k : A -> result B) : result B :=
  match m with
  | Ok a => k a
  | Raise e => Raise e
  end.

Notation "'let*' x ':=' m 'in' k" := (bind m (fun x => k))
  (at level 200, x name, m at level 100, k at level 200).

(** Python truthiness of a str. *)
Definition str_truthy (s : string) : bool :=
  match s with EmptyString => false | _ => true end.

(* ------------------------------------------------------------------ *)
(** * hashlib.sha256(...).hexdigest() *)

Module SHA256.

Definition M32 : Z := 2 ^ 32 - 1.
Definition w32 (x : Z) : Z := Z.land x M32.
Definition add32 (x y : Z) : Z := w32 (x + y).
Definition rotr (x : Z) (n : Z) : Z :=
  Z.lor (Z.shiftr x n) (w32 (Z.shiftl x (32 - n))).

Definition Ch (x y z : Z) : Z := Z.lxor (Z.land x y) (Z.land (Z.lxor x M32) z).
Definition Maj (x y z : Z) : Z :=
  Z.lxor (Z.lxor (Z.land x y) (Z.land x z)) (Z.land y z).
Definition Sigma0 (x : Z) : Z := Z.lxor (Z.lxor (rotr x 2) (rotr x 13)) (rotr x 22).
Definition Sigma1 (x : Z) : Z := Z.lxor (Z.lxor (rotr x 6) (rotr x 11)) (rotr x 25).
Definition sigma0 (x : Z) : Z := Z.lxor (Z.lxor (rotr x 7) (rotr x 18)) (Z.shiftr x 3).
Definition sigma1 (x : Z) : Z := Z.lxor (Z.lxor (rotr x 17) (rotr x 19)) (Z.shiftr x 10).

(** The round constants and the initial hash value, as FIPS 180-4
    defines them: the first 32 bits of the fractional parts of the cube
    roots of the first 64 primes and of the square roots of the first 8. *)
Definition is_prime (n : nat) : bool :=
  (1 <? n)%nat && forallb (fun d => negb (Nat.eqb (n mod d) 0)) (seq 2 (n - 2)).

Definition first_primes (k : nat) : list Z :=
  map Z.of_nat (firstn k (filter is_prime (seq 2 320))).

(** Largest [r] with [r * r * r <= n], built one bit at a time. *)
Fixpoint icbrt_bits (bit : nat) (acc n : Z) : Z :=
  match bit with
  | O => acc
  | S b =>
      let c := acc + 2 ^ Z.of_nat b in
      icbrt_bits b (if c * c * c <=? n then c else acc) n
  end.

Definition frac_cbrt32 (p : Z) : Z := w32 (icbrt_bits 40 0 (p * 2 ^ 96)).
Definition frac_sqrt32 (p : Z) : Z := w32 (Z.sqrt (p * 2 ^ 64)).

Definition K : list Z := Eval vm_compute in map frac_cbrt32 (first_primes 64).
Definition H0 : list Z := Eval vm_compute in map frac_sqrt32 (first_primes 8).

Definition bytes_of_string (s : string) : list Z :=
  map (fun c => Z.of_nat (nat_of_ascii c)) (list_ascii_of_string s).

(** Big-endian 8-byte encoding of the bit length. *)
Definition be64 (n : Z) : list Z :=
  map (fun i => Z.land (Z.shiftr n (8 * (7 - Z.of_nat i))) 255) (seq 0 8).

Definition pad (m : list Z) : list Z :=
  let l := Z.of_nat (List.length m) in
  let k := (55 - l) mod 64 in
  (m ++ [0x80] ++ repeat 0 (Z.to_nat k) ++ be64 (8 * l))%list.

Fixpoint words (bs : list Z) : list Z :=
  match bs with
  | b0 :: b1 :: b2 :: b3 :: rest =>
      (Z.lor (Z.shiftl b0 24) (Z.lor (Z.shiftl b1 16) (Z.lor (Z.shiftl b2 8) b3)))
        :: words rest
  | _ => []
  end.

Fixpoint chunks (fuel : nat) (ws : list Z) : list (list Z) :=
  match fuel with
  | O => []
  | S f =>
      match ws with
      | [] => []
      | _ => firstn 16 ws :: chunks f (skipn 16 ws)
      end
  end.

(** Message schedule, kept newest-first while it is extended. *)
Fixpoint extend (n : nat) (acc : list Z) : list Z :=
  match n with
  | O => acc
  | S n' =>
      let w := add32 (add32 (sigma1 (nth 1 acc 0)) (nth 6 acc 0))
                     (add32 (sigma0 (nth 14 acc 0)) (nth 15 acc 0)) in
      extend n' (w :: acc)
  end.

Definition schedule (block : list Z) : list Z := rev (extend 48 (rev block)).

Definition round (st : list Z) (kw : Z * Z) : list Z :=
  match st with
  | [a; b; c; d; e; f; g; h] =>
      let t1 := add32 (add32 (add32 h (Sigma1 e)) (add32 (Ch e f g) (fst kw))) (snd kw) in
      let t2 := add32 (Sigma0 a) (Maj a b c) in
      [add32 t1 t2; a; b; c; add32 d t1; e; f; g]
  | _ => st
  end.

Definition compress (hs : list Z) (block : list Z) : list Z :=
  let st := fold_left round (combine K (schedule block)) hs in
  map (fun p => add32 (fst p) (snd p)) (combine hs st).

Definition digest (m : list Z) : list Z :=
  let ws := words (pad m) in
  fold_left compress (chunks (List.length ws) ws) H0.

Definition hex_digit (n : Z) : ascii :=
  ascii_of_nat (Z.to_nat (if n <? 10 then 48 + n else 87 + n)).

Definition hex_word (w : Z) : string :=
  string_of_list_ascii
    (map (fun i => hex_digit (Z.land (Z.shiftr w (4 * (7 - Z.of_nat i))) 15)) (seq 0 8)).

Fixpoint concat_strings (l : list string) : string :=
  match l with
  | [] => EmptyString
  | s :: r => append s (concat_strings r)
  end.

(** hashlib.sha256(s.encode()).hexdigest() *)
Definition sha256_hexdigest (s : string) : string :=
  concat_strings (map hex_word (digest (bytes_of_string s))).

End SHA256.

(* ------------------------------------------------------------------ *)
(** * HandleTokenConfig (src/config/handle_token_config.py) *)

(** The attrs class [HandleTokenConfig], with the fields the token handler
    reads.  [backup_token], [max_retry] and [retry_delay] are read by
    token_handler.py but are not fields of the class: [load_config] cannot
    supply them (an unknown keyword argument makes the constructor raise,
    and the default instance is used).  They exist only if assigned on the
    instance afterwards; [backup_token_attr] records that attribute
    ([None]: no such attribute, the state [load_config] produces). *)
Record HandleTokenConfig : Type := {
  default_token : string;
  token_keyword : string;
  pool_size : Z;
  request_timeout : Z;
  refresh_token_check_interval : Z;
  expiry_time : Z;
  min_time_between_refreshes : Z;
  max_concurrent_refreshes : Z;
  refresh_failure_attempts_threshold : Z;
  auto_switch_backup_on_failure : bool;
  thread_pool_size : Z;
  backup_token_attr : option string
}.

(** [HandleTokenConfig()] with every default. *)
Definition default_config : HandleTokenConfig := {|
  default_token := "";
  token_keyword := "token";
  pool_size := 5;
  request_timeout := 3;
  refresh_token_check_interval := 10;
  expiry_time := 7200;
  min_time_between_refreshes := 300;
  max_concurrent_refreshes := 5;
  refresh_failure_attempts_threshold := 10;
  auto_switch_backup_on_failure := false;
  thread_pool_size := 10;
  backup_token_attr := None
|}.

(** [handle_token_config.backup_token]. *)
Definition get_backup_token (c : HandleTokenConfig) : result string :=
  match backup_token_attr c with
  | Some b => Ok b
  | None => Raise (AttributeError "backup_token")
  end.

(* ------------------------------------------------------------------ *)
(** * DefaultTokenProvider (src/core/token_handler.py, lines 31-133) *)

Module Provider.

(** Instance state of a DefaultTokenProvider (the lock and the executor
    carry no data the claims read). *)
Record DefaultTokenProvider : Type := {
  current_token : string;
  token_expiry_time : Z;
  last_refresh_timestamp : Z;
  refresh_failure_count : Z
}.

(** [DefaultTokenProvider.__init__] at time [now]. *)
Definition init (cfg : HandleTokenConfig) (now : Z) : DefaultTokenProvider := {|
  current_token := default_token cfg;
  token_expiry_time := now + expiry_time cfg;
  last_refresh_timestamp := 0;
  refresh_failure_count := 0
|}.

(** A provider object together with its entry in the class-level
    [lru_cache] of [generate_signature] (keyed on [self]). *)
Record world : Type := {
  prov : DefaultTokenProvider;
  sig_cache : option string
}.

(** Methods that [_async_refresh_token] reaches through dynamic dispatch on
    [self] and that DefaultTokenProvider does not define itself. *)
Record ProviderClass : Type := {
  is_token_expired : DefaultTokenProvider -> Z -> result bool
}.

(** DefaultTokenProvider defines no [is_token_expired]: it inherits the
    stub of [TokenProvider], which raises NotImplementedError. *)
Definition DefaultTokenProvider_cls : ProviderClass := {|
  is_token_expired := fun _ _ => Raise NotImplementedError
|}.

(** [generate_signature], decorated with [lru_cache(maxsize=None)]. *)
Definition generate_signature (w : world) : world * string :=
  match sig_cache w with
  | Some h => (w, h)
  | None =>
      let h := SHA256.sha256_hexdigest (current_token (prov w)) in
      ({| prov := prov w; sig_cache := Some h |}, h)
  end.

(** [_should_refresh_token]. *)
Definition should_refresh_token (cls : ProviderClass) (cfg : HandleTokenConfig)
    (p : DefaultTokenProvider) (now : Z) : result bool :=
  let* expired := is_token_expired cls p now in
  Ok (expired || (now - last_refresh_timestamp p >? min_time_between_refreshes cfg)).

(** [_update_current_token]. *)
Definition update_current_token (cfg : HandleTokenConfig) (p : DefaultTokenProvider)
    (new_token : string) (now : Z) : DefaultTokenProvider := {|
  current_token := new_token;
  token_expiry_time := now + expiry_time cfg;
  last_refresh_timestamp := now;
  refresh_failure_count := 0
|}.

(** The three messages [_handle_error] chooses between. *)
Inductive failure_kind := KNetwork | KMalformed | KUnknown.

(** [_handle_error]: the classification it logs. *)
Definition handle_error (e : exn) : failure_kind :=
  match e with
  | ClientError => KNetwork
  | ValueError => KMalformed
  | _ => KUnknown
  end.

(** Observable effects: the refresh POST and the log lines. *)
Inductive event :=
| EPost (current_token signature : string)
| ELogError (k : failure_kind)
| ELogSwitchedToBackup
| ELogWarning.

(** Outcome of [session.post(...)] followed by [await response.json()]:
    a JSON object as an association list, or the exception raised. *)
Inductive http_outcome :=
| Response (json : list (string * string))
| HttpRaise (e : exn).

Definition has_key (k : string) (j : list (string * string)) : bool :=
  existsb (fun kv => String.eqb (fst kv) k) j.

Definition json_get (k : string) (j : list (string * string)) : string :=
  match find (fun kv => String.eqb (fst kv) k) j with
  | Some kv => snd kv
  | None => EmptyString
  end.

(** One activation of [_async_refresh_token] up to its recursive call. *)
Inductive attempt_result :=
| AReturn (tok : string) (w : world) (ev : list event)
| ARetry (w : world) (ev : list event)      (* the except block ran; it recurses *)
| ARaise (e : exn) (w : world) (ev : list event).

(** The [except Exception as e:] block (lines 89-98) up to the recursion. *)
Definition on_refresh_failure (cfg : HandleTokenConfig) (now : Z) (e : exn)
    (w : world) (ev : list event) : attempt_result :=
  let ev := ev ++ [ELogError (handle_error e)] in
  let p := prov w in
  if refresh_failure_attempts_threshold cfg <=? refresh_failure_count p then
    if auto_switch_backup_on_failure cfg then
      match get_backup_token cfg with
      | Raise e' => ARaise e' w ev
      | Ok b =>
          if str_truthy b then
            ARetry {| prov := {| current_token := b;
                                 token_expiry_time := now + expiry_time cfg;
                                 last_refresh_timestamp := last_refresh_timestamp p;
                                 refresh_failure_count := refresh_failure_count p |};
                      sig_cache := sig_cache w |}
                   (ev ++ [ELogSwitchedToBackup])
          else ARetry w ev
      end
    else ARetry w ev
  else ARetry w ev.

(** The [try:] block (lines 69-88) followed by the except block. *)
Definition attempt (cls : ProviderClass) (cfg : HandleTokenConfig) (now : Z)
    (resp : http_outcome) (w : world) : attempt_result :=
  match should_refresh_token cls cfg (prov w) now with
  | Raise e => on_refresh_failure cfg now e w []
  | Ok false => AReturn (current_token (prov w)) w []
  | Ok true =>
      let (w1, signature) := generate_signature w in
      let ev := [EPost (current_token (prov w1)) signature] in
      match resp with
      | HttpRaise e => on_refresh_failure cfg now e w1 ev
      | Response j =>
          if has_key "error" j || negb (has_key (token_keyword cfg) j) then
            on_refresh_failure cfg now ValueError w1 ev
          else
            let new_token := json_get (token_keyword cfg) j in
            AReturn new_token
                    {| prov := update_current_token cfg (prov w1) new_token now;
                       sig_cache := sig_cache w1 |} ev
      end
  end.

Inductive outcome :=
| Returned (tok : string) (w : world) (ev : list event)
| Raised (e : exn) (w : world) (ev : list event)
| Pending (w : world) (ev : list event).   (* still recursing after the given activations *)

Definition prepend_events (ev : list event) (o : outcome) : outcome :=
  match o with
  | Returned t w ev' => Returned t w (ev ++ ev')
  | Raised e w ev' => Raised e w (ev ++ ev')
  | Pending w ev' => Pending w (ev ++ ev')
  end.

(** [_async_refresh_token]: each activation reads the clock and, if it
    posts, gets one HTTP outcome; [env] lists them for successive
    activations.  The source recursion is unbounded; [Pending] is the state
    once [env] is used up. *)
Fixpoint async_refresh_token (cls : ProviderClass) (cfg : HandleTokenConfig)
    (env : list (Z * http_outcome)) (w : world) : outcome :=
  match env with
  | [] => Pending w []
  | (now, resp) :: env' =>
      match attempt cls cfg now resp w with
      | AReturn t w' ev => Returned t w' ev
      | ARaise e w' ev => Raised e w' ev
      | ARetry w' ev => prepend_events ev (async_refresh_token cls cfg env' w')
      end
  end.

(** A subclass that supplies the missing [is_token_expired] the way
    [TokenManager.is_token_expired] reads the provider (line 180). *)
Definition ExpiringProvider_cls : ProviderClass := {|
  is_token_expired := fun p now =>
    Ok (if token_expiry_time p =? 0 then true else now >? token_expiry_time p)
|}.

Definition posted (ev : list event) : bool :=
  existsb (fun e => match e with EPost _ _ => true | _ => false end) ev.

Definition attempt_world (r : attempt_result) : world :=
  match r with AReturn _ w _ | ARetry w _ | ARaise _ w _ => w end.

Definition attempt_events (r : attempt_result) : list event :=
  match r with AReturn _ _ ev | ARetry _ ev | ARaise _ _ ev => ev end.

Definition is_return (r : attempt_result) : bool :=
  match r with AReturn _ _ _ => true | _ => false end.

Definition outcome_world (o : outcome) : world :=
  match o with Returned _ w _ | Raised _ w _ | Pending w _ => w end.

End Provider.

(* ------------------------------------------------------------------ *)
(** * TokenManager (src/core/token_handler.py, lines 137-231) *)

Module Manager.

(** The provider methods [TokenManager.get_token] calls, for a provider
    object whose state is of type [PS] (the parameter is duck-typed). *)
Record ProviderIface (PS : Type) : Type := {
  p_is_token_expired : PS -> Z -> result bool;
  p_refresh_token : PS -> Z -> PS * result (option string)
}.
Arguments p_is_token_expired {PS} _ _ _.
Arguments p_refresh_token {PS} _ _ _.

(** Manager state: [cached_current_token] is [None] or a str;
    [get_token_cache] is the [lru_cache] entry of [get_token] for this
    manager (the cache keys on [self] only). *)
Record TokenManager (PS : Type) : Type := {
  token_provider : PS;
  cached_current_token : option string;
  backup_token : string;
  get_token_cache : option (option string)
}.
Arguments token_provider {PS} _.
Arguments cached_current_token {PS} _.
Arguments backup_token {PS} _.
Arguments get_token_cache {PS} _.

Inductive mevent := MRefresh | MLogError | MLogSwitchedToBackup.

Section GetToken.
Context {PS : Type} (pi : ProviderIface PS).

Definition set_state (m : TokenManager PS) (ps : PS) (c : option string)
    : TokenManager PS :=
  {| token_provider := ps; cached_current_token := c;
     backup_token := backup_token m; get_token_cache := get_token_cache m |}.

(** The body of [get_token] (lines 162-171). *)
Definition get_token_body (m : TokenManager PS) (now : Z)
    : TokenManager PS * result (option string) * list mevent :=
  let cond :=
    match cached_current_token m with
    | None => Ok true
    | Some _ => p_is_token_expired pi (token_provider m) now
    end in
  match cond with
  | Raise e => (m, Raise e, [])
  | Ok false => (m, Ok (cached_current_token m), [])
  | Ok true =>
      let (ps', r) := p_refresh_token pi (token_provider m) now in
      match r with
      | Ok v => (set_state m ps' v, Ok v, [MRefresh])
      | Raise _ =>
          if str_truthy (backup_token m) then
            (set_state m ps' (Some (backup_token m)), Ok (Some (backup_token m)),
             [MRefresh; MLogError; MLogSwitchedToBackup])
          else
            (set_state m ps' (cached_current_token m), Ok (cached_current_token m),
             [MRefresh; MLogError])
      end
  end.

(** [get_token] with its [@lru_cache(maxsize=None)]: a hit returns the
    stored value; a miss runs the body and stores a normal return. *)
Definition get_token (m : TokenManager PS) (now : Z)
    : TokenManager PS * result (option string) * list mevent :=
  match get_token_cache m with
  | Some v => (m, Ok v, [])
  | None =>
      match get_token_body m now with
      | (m', Ok v, ev) =>
          ({| token_provider := token_provider m';
              cached_current_token := cached_current_token m';
              backup_token := backup_token m';
              get_token_cache := Some v |}, Ok v, ev)
      | other => other
      end
  end.

(** Successive calls of [get_token] at the given times. *)
Fixpoint get_token_calls (m : TokenManager PS) (times : list Z)
    : TokenManager PS * list (result (option string)) * list mevent :=
  match times with
  | [] => (m, [], [])
  | t :: ts =>
      let '(m1, r, ev) := get_token m t in
      let '(m2, rs, ev') := get_token_calls m1 ts in
      (m2, r :: rs, ev ++ ev')
  end.

End GetToken.

(** A fresh manager: the constructor caches a truthy [_current_token]
    and stores the provider config's backup token or "". *)
Definition new_manager {PS} (ps : PS) (provider_current_token : string)
    (config_backup : option string) : TokenManager PS := {|
  token_provider := ps;
  cached_current_token :=
    if str_truthy provider_current_token then Some provider_current_token else None;
  backup_token := match config_backup with Some b => b | None => EmptyString end;
  get_token_cache := None
|}.

End Manager.

(* ------------------------------------------------------------------ *)
(** * TokenFetcherPool (src/core/token_handler.py, lines 235-334) *)

Module Pool.

(** A pooled TokenManager as the pool sees it: the [_token_expiry_time]
    of its provider and the [invalid] attribute the pool may set on it
    ([false] while unset). *)
Record Fetcher : Type := {
  provider_expiry_time : Z;
  invalid : bool
}.

(** [TokenManager.is_token_expired] (line 180): an expiry time of 0 is
    falsy and counts as expired. *)
Definition fetcher_is_token_expired (now : Z) (f : Fetcher) : bool :=
  if provider_expiry_time f =? 0 then true else now >? provider_expiry_time f.

Record TokenFetcherPool : Type := {
  token_fetchers : list Fetcher;
  executor_max_workers : Z;     (* _concurrent_refresh_executor._max_workers *)
  executor_queue_size : Z;      (* _concurrent_refresh_executor._work_queue.qsize() *)
  retry_count : Z;
  max_retry : Z
}.

(** [max(2, pool_size // 2)], the executor size chosen in [__init__]. *)
Definition max_workers_for (pool_size : Z) : Z := Z.max 2 (pool_size / 2).

(** [get_token_fetcher]. *)
Fixpoint get_token_fetcher (now : Z) (fs : list Fetcher) : option Fetcher :=
  match fs with
  | [] => None
  | f :: rest =>
      if negb (fetcher_is_token_expired now f) then Some f
      else get_token_fetcher now rest
  end.

(** [_can_refresh_concurrently]. *)
Definition can_refresh_concurrently (p : TokenFetcherPool) : bool :=
  executor_queue_size p <? executor_max_workers p * 2.

Inductive pevent :=
| PRefresh (member : nat) (attempt : nat)   (* fetcher.refresh_token() *)
| PLogError
| PLogWarning.

(** A task of [asyncio.gather] after its first step: finished, or
    suspended in [asyncio.sleep(retry_delay)] before its retry. *)
Inductive task := TDone (r : result (option string)) | TSleeping.

Section Refresh.
(** [refresh i k]: the outcome of the [k]-th call (0 or 1) of
    [refresh_token()] on member [i]. *)
Variable refresh : nat -> nat -> result (option string).
(** [handle_token_config.retry_delay]: [None] when the config object has
    no such attribute, as for every object [load_config] builds (it is
    not a HandleTokenConfig field); [Some d] when one was assigned. *)
Variable retry_delay : option Z.

(** The except branch of [_async_refresh_token(fetcher)] once the
    member is marked invalid: [asyncio.sleep(handle_token_config.retry_delay)]
    first reads the attribute, which raises AttributeError when it is
    missing; otherwise the task suspends in the sleep. *)
Definition retry_branch (rc mr : Z) : task :=
  if rc <? mr then
    match retry_delay with
    | Some _ => TSleeping
    | None => TDone (Raise (AttributeError "retry_delay"%string))
    end
  else TDone (Ok None).

(** First step of [_async_refresh_token(fetcher)] for every member, in
    the order the tasks were created: no task has passed its sleep yet,
    so every check reads the same [rc]. *)
Fixpoint phase1 (rc mr : Z) (i : nat) (fs : list Fetcher)
    : list Fetcher * list task * list pevent :=
  match fs with
  | [] => ([], [], [])
  | f :: rest =>
      let '(fs', ts, ev) := phase1 rc mr (S i) rest in
      match refresh i 0 with
      | Ok v => (f :: fs', TDone (Ok v) :: ts, PRefresh i 0 :: ev)
      | Raise _ =>
          ({| provider_expiry_time := provider_expiry_time f; invalid := true |} :: fs',
           retry_branch rc mr :: ts,
           PRefresh i 0 :: PLogError :: ev)
      end
  end.

(** Resumption of the sleeping tasks (equal delays, woken in order):
    [self._retry_count += 1; return fetcher.refresh_token()]. *)
Fixpoint phase2 (rc : Z) (i : nat) (ts : list task) : Z * list task * list pevent :=
  match ts with
  | [] => (rc, [], [])
  | TDone r :: rest =>
      let '(rc', ts', ev) := phase2 rc (S i) rest in (rc', TDone r :: ts', ev)
  | TSleeping :: rest =>
      let '(rc', ts', ev) := phase2 (rc + 1) (S i) rest in
      (rc', TDone (refresh i 1) :: ts', PRefresh i 1 :: ev)
  end.

(** [asyncio.gather] without [return_exceptions]: the first exception is
    raised to the caller (the other tasks are not cancelled).  Taken in
    list order: first steps that raise occur only when [retry_delay] is
    missing, and then no task sleeps; resumed tasks finish in list order. *)
Fixpoint gather (ts : list task) : result (list (option string)) :=
  match ts with
  | [] => Ok []
  | TDone (Ok v) :: rest => let* vs := gather rest in Ok (v :: vs)
  | TDone (Raise e) :: _ => Raise e
  | TSleeping :: _ => Ok []
  end.

(** [refresh_token_concurrently]. *)
Definition refresh_token_concurrently (p : TokenFetcherPool)
    : TokenFetcherPool * result (list (option string)) * list pevent :=
  if can_refresh_concurrently p then
    let '(fs', ts, ev1) := phase1 (retry_count p) (max_retry p) 0 (token_fetchers p) in
    let '(rc', ts', ev2) := phase2 (retry_count p) 0 ts in
    ({| token_fetchers := fs'; executor_max_workers := executor_max_workers p;
        executor_queue_size := executor_queue_size p; retry_count := rc';
        max_retry := max_retry p |}, gather ts', ev1 ++ ev2)
  else (p, Ok [], [PLogWarning]).

(** What the first step of member [j]'s task leaves, logs and does to
    the member, written per index (used to state the properties). *)
Definition phase1_task (rc mr : Z) (j : nat) : task :=
  match refresh j 0 with
  | Ok v => TDone (Ok v)
  | Raise _ => retry_branch rc mr
  end.

Definition phase1_events (j : nat) : list pevent :=
  match refresh j 0 with
  | Ok _ => [PRefresh j 0]
  | Raise _ => [PRefresh j 0; PLogError]
  end.

Definition marked (j : nat) (f : Fetcher) : Fetcher :=
  match refresh j 0 with
  | Ok _ => f
  | Raise _ => {| provider_expiry_time := provider_expiry_time f; invalid := true |}
  end.

Fixpoint mark_from (i : nat) (fs : list Fetcher) : list Fetcher :=
  match fs with
  | [] => []
  | f :: rest => marked i f :: mark_from (S i) rest
  end.

Definition resume (j : nat) (t : task) : task :=
  match t with
  | TSleeping => TDone (refresh j 1)
  | t => t
  end.

End Refresh.

Definition is_raise {A} (r : result A) : bool :=
  match r with Raise _ => true | Ok _ => false end.

Definition is_sleeping (t : task) : bool :=
  match t with TSleeping => true | TDone _ => false end.

(** [release_token_fetcher], with the members and the released fetcher
    given by object identity ([in] on TokenManager objects compares
    identity); [refresh_outcome] is what [fetcher.refresh_token()] does. *)
Definition release_token_fetcher (members : list nat) (fetcher : nat)
    (refresh_outcome : result (option string)) : list nat * list pevent :=
  if existsb (Nat.eqb fetcher) members then (members, [])
  else
    ((members ++ [fetcher])%list,
     PRefresh fetcher 0 :: match refresh_outcome with
                           | Ok _ => []
                           | Raise _ => [PLogError]
                           end).

Definition refresh_calls (ev : list pevent) : nat :=
  List.length (filter (fun e => match e with PRefresh _ _ => true | _ => false end) ev).

End Pool.

(* ------------------------------------------------------------------ *)
(** * Object construction (attribute lookup on Python objects) *)

Module Construction.

Local Open Scope string_scope.
Local Set Warnings "-register-all".

(** Python values as far as the constructors read them; an object is its
    attribute dictionary (instance attributes, then class attributes). *)
Inductive pyval : Type :=
| PyStr (s : string)
| PyNum (z : Z)
| PyBool (b : bool)
| PyNone
| PyObj (attrs : list (string * pyval))
| PyOpaque (what : string).       (* lock, executor, bound method, task *)

Fixpoint lookup (a : string) (attrs : list (string * pyval)) : option pyval :=
  match attrs with
  | [] => None
  | (k, v) :: rest => if String.eqb k a then Some v else lookup a rest
  end.

(** [getattr(o, a)]. *)
Definition getattr (o : pyval) (a : string) : result pyval :=
  match o with
  | PyObj attrs =>
      match lookup a attrs with
      | Some v => Ok v
      | None => Raise (AttributeError a)
      end
  | _ => Raise (AttributeError a)
  end.

Definition methods (names : list string) : list (string * pyval) :=
  map (fun n => (n, PyOpaque "method")) names.

(** Class attributes of DefaultTokenProvider, with those inherited from
    TokenProvider. *)
Definition DefaultTokenProvider_class_attrs : list (string * pyval) :=
  methods ["__init__"; "generate_signature"; "_async_refresh_token";
           "_should_refresh_token"; "_update_current_token"; "_handle_error";
           "get_token"; "is_token_expired"; "refresh_token"].

(** The [handle_token_config] object: the attrs fields, plus a
    [backup_token] attribute only when one was assigned. *)
Definition config_object (c : HandleTokenConfig) : pyval :=
  PyObj ([("login_url", PyStr "default_login_url");
          ("refresh_url", PyStr "default_refresh_url");
          ("username", PyStr "default_username");
          ("password", PyStr "default_password");
          ("default_token", PyStr (default_token c));
          ("token_keyword", PyStr (token_keyword c));
          ("pool_size", PyNum (pool_size c));
          ("request_timeout", PyNum (request_timeout c));
          ("refresh_token_check_interval", PyNum (refresh_token_check_interval c));
          ("expiry_time", PyNum (expiry_time c));
          ("min_time_between_refreshes", PyNum (min_time_between_refreshes c));
          ("max_concurrent_refreshes", PyNum (max_concurrent_refreshes c));
          ("refresh_failure_attempts_threshold",
             PyNum (refresh_failure_attempts_threshold c));
          ("auto_switch_backup_on_failure", PyBool (auto_switch_backup_on_failure c));
          ("retry_delay_multiplier", PyNum 2);
          ("thread_pool_size", PyNum (thread_pool_size c));
          ("general_request_retry_attempts", PyNum 2);
          ("token_headers", PyNone);
          ("token_cache_cleanup_interval", PyNum 3600)]
         ++ match backup_token_attr c with
            | Some b => [("backup_token", PyStr b)]
            | None => []
            end)%list.

(** [DefaultTokenProvider()] (lines 37-49) at time [now]: the last line,
    [ThreadPoolExecutor(max_workers=thread_pool_size)], raises ValueError
    when the size is not positive (attrs accepts any value from the file). *)
Definition DefaultTokenProvider_new (c : HandleTokenConfig) (now : Z) : result pyval :=
  let p := Provider.init c now in
  if Z.leb (thread_pool_size c) 0 then Raise ValueError
  else
    Ok (PyObj ([("_current_token", PyStr (Provider.current_token p));
                ("_token_expiry_time", PyNum (Provider.token_expiry_time p));
                ("_last_refresh_timestamp", PyNum (Provider.last_refresh_timestamp p));
                ("_refresh_failure_count", PyNum (Provider.refresh_failure_count p));
                ("_token_lock", PyOpaque "RLock");
                ("_executor", PyOpaque "ThreadPoolExecutor")]
               ++ DefaultTokenProvider_class_attrs)%list).

Definition py_truthy (v : pyval) : bool :=
  match v with
  | PyStr s => str_truthy s
  | PyNum z => negb (Z.eqb z 0)
  | PyBool b => b
  | PyNone => false
  | _ => true
  end.

(** [TokenManager(token_provider)] (lines 143-153); on success, the new
    manager's instance attributes. *)
Definition TokenManager_new (token_provider : pyval) : result (list (string * pyval)) :=
  let* cur := getattr token_provider "_current_token" in
  let cached := if py_truthy cur then cur else PyNone in
  let* cfg1 := getattr token_provider "config" in
  let* b1 := getattr cfg1 "backup_token" in
  let* backup :=
    match b1 with
    | PyNone => Ok (PyStr "")
    | _ => let* cfg2 := getattr token_provider "config" in getattr cfg2 "backup_token"
    end in
  Ok [("_token_provider", token_provider); ("_cached_current_token", cached);
      ("_on_token_updated", PyNone); ("_backup_token", backup);
      ("_token_lock", PyOpaque "RLock"); ("_loop", PyOpaque "event loop");
      ("_auto_refresh_task", PyOpaque "task")].

Fixpoint repeat_new (n : nat) (token_provider : pyval)
    : result (list (list (string * pyval))) :=
  match n with
  | O => Ok []
  | S n' =>
      let* m := TokenManager_new token_provider in
      let* ms := repeat_new n' token_provider in
      Ok (m :: ms)
  end.

(** [TokenFetcherPool()] (lines 241-248); on success, the number of
    managers and the [_max_retry] read from the configuration. *)
Definition TokenFetcherPool_new (c : HandleTokenConfig) (now : Z)
    : result (nat * pyval) :=
  let* tp := DefaultTokenProvider_new c now in
  let* cfg1 := getattr tp "config" in
  let* n := getattr cfg1 "pool_size" in
  match n with
  | PyNum k =>
      let* ms := repeat_new (Z.to_nat k) tp in
      let* cfg2 := getattr tp "config" in
      let* _ := getattr cfg2 "pool_size" in
      let* mr := getattr (config_object c) "max_retry" in
      Ok (List.length ms, mr)
  | _ => Raise OtherError
  end.

End Construction.

(* ------------------------------------------------------------------ *)
(** * The background task of TokenManager (lines 193-209) *)

Module AutoRefresh.
Import Provider.

(** Where one loop iteration ends: in [asyncio.sleep(interval)], with an
    exception that ends the task, or still awaiting the provider refresh. *)
Inductive tick_result :=
| TickSleep (cached : option string) (w : world) (notified : list string) (interval : Z)
| TickRaise (e : exn) (cached : option string) (w : world) (notified : list string)
| TickPending (w : world).

(** One iteration of [_auto_refresh_token]'s [while True] loop.
    [env] feeds the awaited [_async_refresh_token]; [config_interval] is
    [self._token_provider.config.refresh_token_check_interval] ([None]:
    the provider has no [config] attribute); [notified] lists the
    arguments passed to [_on_token_updated]. *)
Definition auto_refresh_tick (cls : ProviderClass) (cfg : HandleTokenConfig)
    (env : list (Z * http_outcome)) (config_interval : option Z)
    (has_callback : bool) (cached : option string) (w : world) (now : Z)
    : tick_result :=
  let sleep c w' notified :=
    match config_interval with
    | Some i => TickSleep c w' notified i
    | None => TickRaise (AttributeError "config"%string) c w' notified
    end in
  (* self.is_token_expired(): TokenManager's check on the provider expiry *)
  if Pool.fetcher_is_token_expired now
       {| Pool.provider_expiry_time := token_expiry_time (prov w);
          Pool.invalid := false |}
  then
    match async_refresh_token cls cfg env w with
    | Returned t w' _ =>
        if str_truthy t then sleep (Some t) w' (if has_callback then [t] else [])
        else sleep cached w' []
    | Raised _ w' _ => sleep cached w' []      (* except Exception: _handle_error *)
    | Pending w' _ => TickPending w'
    end
  else sleep cached w [].

End AutoRefresh.

(* ------------------------------------------------------------------ *)
(** * load_config (src/config/handle_token_config.py, lines 51-61) *)

Module ConfigLoading.
Import Construction.
Local Open Scope string_scope.

(** The attrs fields of HandleTokenConfig with their defaults. *)
Definition HandleTokenConfig_fields : list (string * pyval) :=
  [("login_url", PyStr "default_login_url");
   ("refresh_url", PyStr "default_refresh_url");
   ("username", PyStr "default_username");
   ("password", PyStr "default_password");
   ("default_token", PyStr "");
   ("token_keyword", PyStr "token");
   ("pool_size", PyNum 5);
   ("request_timeout", PyNum 3);
   ("refresh_token_check_interval", PyNum 10);
   ("expiry_time", PyNum 7200);
   ("min_time_between_refreshes", PyNum 300);
   ("max_concurrent_refreshes", PyNum 5);
   ("refresh_failure_attempts_threshold", PyNum 10);
   ("auto_switch_backup_on_failure", PyBool false);
   ("retry_delay_multiplier", PyNum 2);
   ("thread_pool_size", PyNum 10);
   ("general_request_retry_attempts", PyNum 2);
   ("token_headers", PyNone);
   ("token_cache_cleanup_interval", PyNum 3600)].

Definition field_names : list string := map fst HandleTokenConfig_fields.

Definition is_field (k : string) : bool := existsb (String.eqb k) field_names.

(** A dunder name, [__x__]. *)
Definition is_dunder (k : string) : bool :=
  (4 <=? String.length k)%nat && String.prefix "__" k
  && String.eqb (String.substring (String.length k - 2) 2 k) "__".

Section Loading.
(** The attributes an instance finds through its class and [object]
    after its own fields: those attrs generates ([__init__], [__repr__],
    [__eq__], [__ne__], the ordering methods, [__hash__],
    [__attrs_attrs__], ...) and those of [object] ([__dict__],
    [__class__], [__getattribute__], ...).  attrs deletes the [attr.ib]
    class attributes and HandleTokenConfig defines nothing else, so all
    of them have dunder names; the exact list depends on the Python and
    attrs versions and is kept abstract. *)
Variable class_attrs : list (string * pyval).

(** Calling the attrs class with keyword arguments: an unknown keyword
    raises TypeError (here [OtherError]); attrs checks no types. *)
Definition HandleTokenConfig_new (kwargs : list (string * pyval)) : result pyval :=
  if forallb (fun kv => is_field (fst kv)) kwargs then
    Ok (PyObj (map (fun fd => (fst fd, match lookup (fst fd) kwargs with
                                       | Some v => v
                                       | None => snd fd
                                       end))
                   HandleTokenConfig_fields ++ class_attrs))
  else Raise OtherError.

Definition default_object : pyval := PyObj (HandleTokenConfig_fields ++ class_attrs).

(** [load_config()]: [file] is the JSON object read from
    handle_token_config.json as a dict ([None]: the file cannot be opened
    or parsed, or holds no JSON object); any exception gives the default. *)
Definition load_config (file : option (list (string * pyval))) : pyval :=
  match file with
  | None => default_object
  | Some kwargs =>
      match HandleTokenConfig_new kwargs with
      | Ok o => o
      | Raise _ => default_object
      end
  end.

End Loading.

(** A sample of the class attributes of a HandleTokenConfig instance. *)
Definition sample_class_attrs : list (string * pyval) :=
  [("__init__", PyOpaque "method");
   ("__repr__", PyOpaque "method");
   ("__eq__", PyOpaque "method");
   ("__hash__", PyNone);
   ("__attrs_attrs__", PyOpaque "tuple");
   ("__dict__", PyOpaque "dict")].

End ConfigLoading.

(* ------------------------------------------------------------------ *)
(** * Concrete inputs used by the examples below *)

Module Scenarios.
Import Provider.
Local Open Scope string_scope.

(** A configuration with a failure threshold of 1, the backup-token policy
    on and a [backup_token] attribute assigned on the config object. *)
Definition cfg_backup : HandleTokenConfig := {|
  default_token := "primary";
  token_keyword := "token";
  pool_size := 5;
  request_timeout := 3;
  refresh_token_check_interval := 10;
  expiry_time := 7200;
  min_time_between_refreshes := 300;
  max_concurrent_refreshes := 5;
  refresh_failure_attempts_threshold := 1;
  auto_switch_backup_on_failure := true;
  thread_pool_size := 10;
  backup_token_attr := Some "backup"
|}.

Definition prov_state (tok : string) (expiry last count : Z) : world := {|
  prov := {| current_token := tok; token_expiry_time := expiry;
             last_refresh_timestamp := last; refresh_failure_count := count |};
  sig_cache := None
|}.

(** A provider built at time 0 with [cfg_backup]: token "primary",
    valid until 7200, never refreshed, no failure. *)
Definition w_primary : world := prov_state "primary" 7200 0 0.

(** An expired provider (expiry 100) holding "old". *)
Definition w_expired : world := prov_state "old" 100 0 0.

Definition error_response : http_outcome := Response [("error", "invalid")].
Definition token_response : http_outcome := Response [("token", "new")].

(** Providers for the manager examples; their state is (expiry time,
    number of [refresh_token] calls so far). *)
Definition counting_provider : Manager.ProviderIface (Z * nat) := {|
  Manager.p_is_token_expired := fun ps now => Ok (now >? fst ps);
  Manager.p_refresh_token := fun ps now =>
    ((now + 7200, S (snd ps)), Ok (Some "fresh"))
|}.

(** A provider whose [refresh_token] is the [TokenProvider] stub that
    DefaultTokenProvider inherits. *)
Definition failing_provider : Manager.ProviderIface (Z * nat) := {|
  Manager.p_is_token_expired := fun ps now => Ok (now >? fst ps);
  Manager.p_refresh_token := fun ps now =>
    ((fst ps, S (snd ps)), Raise NotImplementedError)
|}.

(** Managers built over a provider expiring at 100, with no backup token:
    one whose provider held "old", one whose provider held "". *)
Definition m_old : Manager.TokenManager (Z * nat) :=
  Manager.new_manager (100, 0%nat) "old" None.
Definition m_empty : Manager.TokenManager (Z * nat) :=
  Manager.new_manager (100, 0%nat) "" None.

(** Five pool members valid until 5000, an executor sized for a pool
    of 5 (2 workers) with 3 queued items, and a configuration allowing one
    concurrent refresh. *)
Definition cfg_one_concurrent : HandleTokenConfig := {|
  default_token := "";
  token_keyword := "token";
  pool_size := 5;
  request_timeout := 3;
  refresh_token_check_interval := 10;
  expiry_time := 7200;
  min_time_between_refreshes := 300;
  max_concurrent_refreshes := 1;
  refresh_failure_attempts_threshold := 10;
  auto_switch_backup_on_failure := false;
  thread_pool_size := 10;
  backup_token_attr := None
|}.

Definition valid_member : Pool.Fetcher :=
  {| Pool.provider_expiry_time := 5000; Pool.invalid := false |}.

Definition pool_busy : Pool.TokenFetcherPool := {|
  Pool.token_fetchers := repeat valid_member 5;
  Pool.executor_max_workers := Pool.max_workers_for (pool_size cfg_one_concurrent);
  Pool.executor_queue_size := 3;
  Pool.retry_count := 0;
  Pool.max_retry := 0
|}.

(** One member and a retry budget of 3. *)
Definition pool_one : Pool.TokenFetcherPool := {|
  Pool.token_fetchers := [valid_member];
  Pool.executor_max_workers := 2;
  Pool.executor_queue_size := 0;
  Pool.retry_count := 0;
  Pool.max_retry := 3
|}.

Definition refresh_ok (_ _ : nat) : result (option string) := Ok (Some "fresh").
Definition refresh_down (_ _ : nat) : result (option string) := Raise ClientError.

End Scenarios.

(* ================================================================== *)
(** * The SHA-256 model against the FIPS 180-4 test vectors *)

Example sha256_abc :
  SHA256.sha256_hexdigest "abc" =
  "ba7816bf8f01cfea414140de5dae2223b00361a396177a9cb410ff61f20015ad"%string.
Proof. vm_compute. reflexivity. Qed.

Example sha256_empty :
  SHA256.sha256_hexdigest "" =
  "e3b0c44298fc1c149afbf4c8996fb92427ae41e4649b934ca495991b7852b855"%string.
Proof. vm_compute. reflexivity. Qed.

(* ================================================================== *)
(** * Properties of DefaultTokenProvider *)

Module ProviderFacts.
Import Provider Scenarios.

(** Case split on every [match]/[if] left in the goal. *)
Ltac break_matches :=
  repeat match goal with
  | |- context [match ?x with _ => _ end] => destruct x
  end.

Lemma on_refresh_failure_not_return cfg now e w ev :
  is_return (on_refresh_failure cfg now e w ev) = false.
Proof.
  unfold on_refresh_failure.
  break_matches; reflexivity.
Qed.

(** The except block leaves [_refresh_failure_count] as it found it. *)
Lemma on_refresh_failure_keeps_count cfg now e w ev :
  refresh_failure_count (prov (attempt_world (on_refresh_failure cfg now e w ev)))
  = refresh_failure_count (prov w).
Proof.
  unfold on_refresh_failure.
  break_matches; reflexivity.
Qed.

Lemma on_refresh_failure_posted cfg now e w ev :
  posted (attempt_events (on_refresh_failure cfg now e w ev)) = posted ev.
Proof.
  unfold on_refresh_failure, posted.
  break_matches; simpl;
    rewrite ?existsb_app; simpl; rewrite ?orb_false_r; reflexivity.
Qed.

Lemma on_refresh_failure_below_threshold cfg now e w ev :
  refresh_failure_count (prov w) < refresh_failure_attempts_threshold cfg ->
  on_refresh_failure cfg now e w ev = ARetry w (ev ++ [ELogError (handle_error e)]).
Proof.
  intros H. unfold on_refresh_failure.
  replace (refresh_failure_attempts_threshold cfg <=? refresh_failure_count (prov w))
    with false by (symmetry; apply Z.leb_gt; lia).
  reflexivity.
Qed.

(** One activation either keeps the failure count or resets it to 0. *)
Lemma attempt_count cls cfg now resp w :
  refresh_failure_count (prov (attempt_world (attempt cls cfg now resp w)))
  = refresh_failure_count (prov w)
  \/ refresh_failure_count (prov (attempt_world (attempt cls cfg now resp w))) = 0.
Proof.
  unfold attempt.
  destruct (should_refresh_token cls cfg (prov w) now) as [[|]|e].
  - unfold generate_signature.
    destruct (sig_cache w); destruct resp;
      try (left; apply on_refresh_failure_keeps_count);
      break_matches;
      try (left; rewrite on_refresh_failure_keeps_count; reflexivity);
      right; reflexivity.
  - left. reflexivity.
  - left. apply on_refresh_failure_keeps_count.
Qed.

Lemma outcome_world_prepend ev o :
  outcome_world (prepend_events ev o) = outcome_world o.
Proof. destruct o; reflexivity. Qed.

Lemma async_refresh_token_count cls cfg env w :
  refresh_failure_count (prov (outcome_world (async_refresh_token cls cfg env w)))
  = refresh_failure_count (prov w)
  \/ refresh_failure_count (prov (outcome_world (async_refresh_token cls cfg env w))) = 0.
Proof.
  revert w. induction env as [|[now resp] env IH]; intros w; simpl.
  - left. reflexivity.
  - pose proof (attempt_count cls cfg now resp w) as Ha.
    destruct (attempt cls cfg now resp w) eqn:E; simpl in *; auto.
    rewrite outcome_world_prepend.
    destruct (IH w0) as [H|H]; [rewrite H|]; tauto.
Qed.

(** DefaultTokenProvider as shipped: every activation fails in
    [_should_refresh_token] and, below the threshold, recurses unchanged. *)
Lemma default_provider_pending cfg env w :
  refresh_failure_count (prov w) < refresh_failure_attempts_threshold cfg ->
  exists ev, async_refresh_token DefaultTokenProvider_cls cfg env w = Pending w ev.
Proof.
  intros H. induction env as [|[now resp] env [ev IH]]; simpl.
  - eexists. reflexivity.
  - unfold attempt at 1. simpl.
    rewrite (on_refresh_failure_below_threshold cfg now NotImplementedError w [] H).
    rewrite IH. eexists. reflexivity.
Qed.

(** C1 (refresh failures and the backup-token switch).  No path of
    [_async_refresh_token] increments [_refresh_failure_count]: across any
    run it keeps its value or is reset to 0.  With threshold 1, the backup
    policy on and a backup token assigned, a DefaultTokenProvider whose
    count is 0 fails every activation, and after any number of them the
    count is still 0 and the live token is still "primary". *)
Theorem C1_failure_count_never_incremented :
  (forall cls cfg env w,
      refresh_failure_count (prov (outcome_world (async_refresh_token cls cfg env w)))
      = refresh_failure_count (prov w)
      \/ refresh_failure_count (prov (outcome_world (async_refresh_token cls cfg env w)))
         = 0) /\
  (forall env, exists ev,
      async_refresh_token DefaultTokenProvider_cls cfg_backup env w_primary
      = Pending w_primary ev).
Proof.
  split.
  - apply async_refresh_token_count.
  - intros env. apply default_provider_pending. simpl. lia.
Qed.

(** C2 (no refresh while the token is valid), as stated: refuted.  A
    provider that implements [is_token_expired] (here as the manager reads
    expiry) posts a refresh at time 1000 for a token valid until 7200,
    because its last refresh (timestamp 0) is older than 300 s; and the
    DefaultTokenProvider itself never returns the valid current token: each
    activation fails with NotImplementedError and recurses. *)
Lemma C2_valid_token_refresh_counterexample :
  is_token_expired ExpiringProvider_cls (prov w_primary) 1000 = Ok false /\
  posted (attempt_events
            (attempt ExpiringProvider_cls default_config 1000 token_response w_primary))
  = true /\
  async_refresh_token DefaultTokenProvider_cls default_config
    [(1000, token_response); (1001, token_response)] w_primary
  = Pending w_primary [ELogError KUnknown; ELogError KUnknown].
Proof. vm_compute. repeat split. Qed.

(** C2, amended: for a provider whose [is_token_expired] returns [b], an
    activation posts the refresh request exactly when [b] holds or more
    than [min_time_between_refreshes] have passed since the last refresh;
    otherwise it returns the current token and changes nothing. *)
Theorem C2_posts_iff_should_refresh cls cfg now resp w b
    (Hexp : is_token_expired cls (prov w) now = Ok b) :
  posted (attempt_events (attempt cls cfg now resp w))
  = (b || (now - last_refresh_timestamp (prov w) >? min_time_between_refreshes cfg)) /\
  ((b || (now - last_refresh_timestamp (prov w) >? min_time_between_refreshes cfg))
     = false ->
   attempt cls cfg now resp w = AReturn (current_token (prov w)) w []).
Proof.
  unfold attempt, should_refresh_token. rewrite Hexp. simpl.
  destruct (b || _) eqn:Hs.
  - split; [|discriminate].
    unfold generate_signature.
    destruct (sig_cache w); destruct resp; simpl;
      break_matches; simpl;
      rewrite ?on_refresh_failure_posted; reflexivity.
  - split; reflexivity.
Qed.

Lemma C2_posts_iff_should_refresh_witness :
  is_token_expired ExpiringProvider_cls (prov w_primary) 100 = Ok false /\
  attempt ExpiringProvider_cls default_config 100 token_response w_primary
  = AReturn "primary" w_primary [].
Proof.
  split; [reflexivity|].
  apply (proj2 (C2_posts_iff_should_refresh ExpiringProvider_cls default_config 100
                  token_response w_primary false eq_refl)).
  reflexivity.
Defined.

(** C5 (signature of the current token).  Once [generate_signature] has
    an [lru_cache] entry for the provider it returns that entry whatever
    the token is; after a successful refresh from "old" to "new" it still
    returns the digest of "old", which differs from the digest of "new". *)
Theorem C5_signature_stale_after_refresh :
  (forall w h, sig_cache w = Some h -> snd (generate_signature w) = h) /\
  current_token (prov (attempt_world
    (attempt ExpiringProvider_cls default_config 200 token_response w_expired))) = "new"%string /\
  snd (generate_signature (attempt_world
    (attempt ExpiringProvider_cls default_config 200 token_response w_expired)))
  = SHA256.sha256_hexdigest "old" /\
  SHA256.sha256_hexdigest "old" <> SHA256.sha256_hexdigest "new".
Proof.
  split; [intros w h H; unfold generate_signature; rewrite H; reflexivity|].
  split; [vm_compute; reflexivity|].
  split; [vm_compute; reflexivity|].
  intros H. vm_compute in H. discriminate H.
Qed.

(** C7 (malformed response).  A response carrying "error" is classified
    as malformed, the failure count stays 0 (not 1) and the token is kept;
    for the DefaultTokenProvider itself no request is made at all and the
    failure is logged as an unknown error, again with the count at 0. *)
Theorem C7_malformed_response_count_unchanged :
  attempt ExpiringProvider_cls default_config 200 error_response w_expired
  = ARetry {| prov := prov w_expired;
              sig_cache := Some (SHA256.sha256_hexdigest "old") |}
           [EPost "old" (SHA256.sha256_hexdigest "old"); ELogError KMalformed] /\
  refresh_failure_count (prov w_expired) = 0 /\
  attempt DefaultTokenProvider_cls default_config 200 error_response w_expired
  = ARetry w_expired [ELogError KUnknown].
Proof. vm_compute. repeat split. Qed.

End ProviderFacts.


(* ================================================================== *)
(** * Properties of TokenManager.get_token *)

Module ManagerFacts.
Import Manager Scenarios.

(** C3 (get_token refreshes once the cache is stale).  After the first
    normal return, [get_token] answers from its [lru_cache] entry and runs
    nothing.  A manager holding "old" is asked at time 0 and again at 1000,
    when its provider reports expiry: both calls return "old" and the
    provider's [refresh_token] is never called, although the body alone
    would refresh at 1000. *)
Theorem C3_get_token_memoized_forever :
  (forall PS (pi : ProviderIface PS) m now v,
      get_token_cache m = Some v -> get_token pi m now = (m, Ok v, [])) /\
  (let '(m', rs, ev) := get_token_calls counting_provider m_old [0; 1000] in
   rs = [Ok (Some "old"%string); Ok (Some "old"%string)] /\ ev = [] /\
   snd (token_provider m') = 0%nat /\
   p_is_token_expired counting_provider (token_provider m') 1000 = Ok true) /\
  (let '(_, r, ev) := get_token_body counting_provider m_old 1000 in
   r = Ok (Some "fresh"%string) /\ ev = [MRefresh]).
Proof.
  split; [intros PS pi m now v H; unfold get_token; rewrite H; reflexivity|].
  split; vm_compute; repeat split.
Qed.

(** C6 (get_token never returns an empty or expired token).  With an
    empty cache, a failing provider refresh and no backup token,
    [get_token] returns None normally (and caches it); with "old" cached
    and the provider expired at 1000, it returns "old". *)
Theorem C6_get_token_returns_none_or_expired :
  (let '(m', r, ev) := get_token failing_provider m_empty 0 in
   cached_current_token m_empty = None /\ backup_token m_empty = ""%string /\
   r = Ok None /\ ev = [MRefresh; MLogError] /\ get_token_cache m' = Some None) /\
  (let '(_, r, _) := get_token failing_provider m_old 1000 in
   p_is_token_expired failing_provider (token_provider m_old) 1000 = Ok true /\
   r = Ok (Some "old"%string)).
Proof. vm_compute. repeat split. Qed.

End ManagerFacts.

(* ================================================================== *)
(** * Properties of TokenFetcherPool *)

Module PoolFacts.
Import Pool Scenarios.

Section Phases.
Variable refresh : nat -> nat -> result (option string).
Variable retry_delay : option Z.

Lemma phase1_eq rc mr fs : forall i,
  phase1 refresh retry_delay rc mr i fs =
  (mark_from refresh i fs,
   map (phase1_task refresh retry_delay rc mr) (seq i (List.length fs)),
   flat_map (phase1_events refresh) (seq i (List.length fs))).
Proof.
  induction fs as [|f fs IH]; intros i; [reflexivity|].
  simpl. rewrite IH.
  unfold marked, phase1_task, phase1_events.
  destruct (refresh i 0%nat); reflexivity.
Qed.

Lemma phase2_eq (g : nat -> task) n : forall i rc,
  phase2 refresh rc i (map g (seq i n)) =
  (rc + Z.of_nat (List.length (filter (fun j => is_sleeping (g j)) (seq i n))),
   map (fun j => resume refresh j (g j)) (seq i n),
   flat_map (fun j => if is_sleeping (g j) then [PRefresh j 1] else []) (seq i n)).
Proof.
  induction n as [|n IH]; intros i rc; simpl.
  - f_equal. f_equal. lia.
  - destruct (g i) eqn:Hg; simpl; rewrite IH.
    + reflexivity.
    + simpl. f_equal. f_equal. lia.
Qed.

Lemma nth_error_mark_from fs : forall i k,
  nth_error (mark_from refresh i fs) k = option_map (marked refresh (i + k)) (nth_error fs k).
Proof.
  induction fs as [|f fs IH]; intros i k; [destruct k; reflexivity|].
  destruct k; simpl.
  - rewrite Nat.add_0_r. reflexivity.
  - rewrite IH. f_equal. f_equal. lia.
Qed.

Lemma map_expiry_mark_from fs : forall i,
  map provider_expiry_time (mark_from refresh i fs) = map provider_expiry_time fs.
Proof.
  induction fs as [|f fs IH]; intros i; [reflexivity|].
  simpl. rewrite IH. unfold marked. destruct (refresh i 0%nat); reflexivity.
Qed.

Lemma gather_raise ts e : gather ts = Raise e -> In (TDone (Raise e)) ts.
Proof.
  induction ts as [|t ts IH]; simpl; [discriminate|].
  destruct t as [[v|e']|]; simpl.
  - destruct (gather ts); simpl; [discriminate|]. intros H. right. apply IH. exact H.
  - intros H. inversion H. left. reflexivity.
  - discriminate.
Qed.

End Phases.

(** [get_token_fetcher] reads nothing but the members' expiry times. *)
Lemma get_token_fetcher_expiry_only now fs gs :
  map provider_expiry_time fs = map provider_expiry_time gs ->
  option_map provider_expiry_time (get_token_fetcher now fs)
  = option_map provider_expiry_time (get_token_fetcher now gs).
Proof.
  revert gs. induction fs as [|f fs IH]; intros [|g gs]; simpl; try discriminate; auto.
  intros H. injection H as H1 H2.
  unfold fetcher_is_token_expired. rewrite H1.
  destruct (_ =? _); simpl; [apply IH; exact H2|].
  destruct (now >? provider_expiry_time g); simpl; [apply IH; exact H2|].
  rewrite H1. reflexivity.
Qed.

Lemma refresh_calls_app l1 l2 :
  refresh_calls (l1 ++ l2) = (refresh_calls l1 + refresh_calls l2)%nat.
Proof. unfold refresh_calls. rewrite filter_app, length_app. reflexivity. Qed.

Lemma refresh_calls_phase1 refresh n : forall i,
  refresh_calls (flat_map (phase1_events refresh) (seq i n)) = n.
Proof.
  induction n as [|n IH]; intros i; [reflexivity|].
  simpl. rewrite refresh_calls_app, IH.
  unfold phase1_events. destruct (refresh i 0%nat); reflexivity.
Qed.

Lemma sleeping_phase1_task refresh rd rc mr j :
  is_sleeping (phase1_task refresh rd rc mr j)
  = is_raise (refresh j 0%nat) && (rc <? mr) && match rd with Some _ => true | None => false end.
Proof.
  unfold phase1_task, retry_branch. destruct (refresh j 0%nat); [reflexivity|].
  destruct (rc <? mr), rd; reflexivity.
Qed.

Lemma in_phase1_events refresh j i a :
  In (PRefresh i a) (phase1_events refresh j) <-> i = j /\ a = 0%nat.
Proof.
  unfold phase1_events. destruct (refresh j 0%nat); simpl; split.
  1,3: intros H; repeat (destruct H as [H|H]; [inversion H; subst; auto|]);
       contradiction.
  all: intros [-> ->]; left; reflexivity.
Qed.

(** C8 (get_token_fetcher).  The result is the first member that is not
    expired, or None exactly when every member is expired. *)
Theorem C8_get_token_fetcher_first_unexpired now fs :
  match get_token_fetcher now fs with
  | None => Forall (fun f => fetcher_is_token_expired now f = true) fs
  | Some f =>
      exists pre post, fs = (pre ++ f :: post)%list /\
        Forall (fun g => fetcher_is_token_expired now g = true) pre /\
        fetcher_is_token_expired now f = false
  end.
Proof.
  induction fs as [|f fs IH]; simpl; [constructor|].
  destruct (fetcher_is_token_expired now f) eqn:E; simpl.
  - destruct (get_token_fetcher now fs) as [g|].
    + destruct IH as (pre & post & H1 & H2 & H3).
      exists (f :: pre), post. rewrite H1.
      split; [reflexivity|]. split; [constructor; assumption|assumption].
    + constructor; assumption.
  - exists [], fs. split; [reflexivity|]. split; [apply Forall_nil|exact E].
Qed.

(** C4 (admission control), as stated: refuted.  The gate compares the
    executor's queue length with twice its worker count (max(2, 5 // 2) =
    2 for a pool of 5), not with max_concurrent_refreshes: with one
    concurrent refresh allowed and 3 items queued, the budget 2 is
    exceeded, yet all 5 members are refreshed. *)
Lemma C4_budget_counterexample :
  executor_max_workers pool_busy = 2 /\
  2 * max_concurrent_refreshes cfg_one_concurrent <= executor_queue_size pool_busy /\
  refresh_calls (snd (refresh_token_concurrently refresh_ok None pool_busy)) = 5%nat.
Proof. vm_compute. repeat split; discriminate. Qed.

(** C4, amended: when the queue length is not below twice the executor's
    [_max_workers], nothing changes, no refresh is made and a warning is
    logged; otherwise every member is refreshed at least once and no
    warning is logged. *)
Theorem C4_admission_gate refresh retry_delay p :
  let '(p', r, ev) := refresh_token_concurrently refresh retry_delay p in
  ((executor_queue_size p <? executor_max_workers p * 2) = false ->
     p' = p /\ r = Ok [] /\ ev = [PLogWarning] /\ refresh_calls ev = 0%nat) /\
  ((executor_queue_size p <? executor_max_workers p * 2) = true ->
     (List.length (token_fetchers p) <= refresh_calls ev)%nat /\ ~ In PLogWarning ev).
Proof.
  unfold refresh_token_concurrently, can_refresh_concurrently.
  destruct (executor_queue_size p <? executor_max_workers p * 2) eqn:G.
  - rewrite phase1_eq. cbv iota beta. rewrite phase2_eq. cbv iota beta.
    split; [discriminate|]. intros _.
    rewrite refresh_calls_app, refresh_calls_phase1. split; [lia|].
    rewrite in_app_iff, !in_flat_map. intros [(j & _ & Hj)|(j & _ & Hj)].
    + unfold phase1_events in Hj. destruct (refresh j 0%nat); simpl in Hj;
        intuition discriminate.
    + destruct (is_sleeping _); simpl in Hj; intuition discriminate.
  - split; [intros _; repeat split|discriminate].
Qed.

Lemma C4_admission_gate_witness :
  (executor_queue_size pool_busy <? executor_max_workers pool_busy * 2) = true /\
  (5 <= refresh_calls (snd (refresh_token_concurrently refresh_ok None pool_busy)))%nat.
Proof.
  split; [reflexivity|].
  pose proof (C4_admission_gate refresh_ok None pool_busy) as H.
  revert H.
  destruct (refresh_token_concurrently refresh_ok None pool_busy) as [[p' r] ev].
  intros [_ H]. simpl. apply H. reflexivity.
Defined.

Lemma no_sleep_without_retry_delay refresh rc mr j :
  is_sleeping (phase1_task refresh None rc mr j) = false.
Proof. rewrite sleeping_phase1_task. apply andb_false_r. Qed.

Lemma gather_without_retry_delay refresh rc mr l :
  gather (map (fun j => resume refresh j (phase1_task refresh None rc mr j)) l)
  = if (rc <? mr) && existsb (fun j => is_raise (refresh j 0%nat)) l
    then Raise (AttributeError "retry_delay"%string)
    else Ok (map (fun j => match refresh j 0%nat with Ok v => v | Raise _ => None end) l).
Proof.
  induction l as [|j l IH]; simpl.
  - rewrite andb_false_r. reflexivity.
  - unfold phase1_task at 1, retry_branch.
    destruct (refresh j 0%nat) as [v|e]; simpl.
    + rewrite IH. destruct (andb (Z.ltb rc mr) (existsb (fun j => is_raise (refresh j 0%nat)) l)); reflexivity.
    + destruct (Z.ltb rc mr) eqn:Hlt; simpl; [reflexivity|].
      rewrite IH; rewrite ?Hlt; reflexivity.
Qed.

(** C9 (isolated retries and invalid members): code bug.  With the
    configuration object [load_config] builds, which has no [retry_delay]
    attribute, the retry branch raises AttributeError('retry_delay') when
    it reads the delay: no member is ever retried and [_retry_count] never
    grows.  Every member still gets its first call (a failure cancels no
    other task), a failing member is marked invalid, the AttributeError
    escapes the cycle exactly when the retry budget was open and some
    member failed, and [get_token_fetcher] afterwards picks a member with
    the same expiry as before: the invalid flag excludes nothing. *)
Theorem C9_failed_member_not_retried_nor_excluded refresh p
    (Hadmit : (executor_queue_size p <? executor_max_workers p * 2) = true) :
  let n := List.length (token_fetchers p) in
  let '(p', r, ev) := refresh_token_concurrently refresh None p in
  (forall i a, In (PRefresh i a) ev <-> (i < n)%nat /\ a = 0%nat) /\
  retry_count p' = retry_count p /\
  (forall i f, nth_error (token_fetchers p) i = Some f ->
     nth_error (token_fetchers p') i =
       Some {| provider_expiry_time := provider_expiry_time f;
               invalid := invalid f || is_raise (refresh i 0%nat) |}) /\
  r = (if (retry_count p <? max_retry p)
          && existsb (fun j => is_raise (refresh j 0%nat)) (seq 0 n)
       then Raise (AttributeError "retry_delay"%string)
       else Ok (map (fun j => match refresh j 0%nat with Ok v => v | Raise _ => None end)
                    (seq 0 n))) /\
  (forall now, option_map provider_expiry_time (get_token_fetcher now (token_fetchers p'))
             = option_map provider_expiry_time (get_token_fetcher now (token_fetchers p))).
Proof.
  cbv zeta. unfold refresh_token_concurrently, can_refresh_concurrently.
  rewrite Hadmit, phase1_eq. cbv iota beta. rewrite phase2_eq. cbv iota beta. simpl.
  set (rc := retry_count p). set (mr := max_retry p).
  set (n := List.length (token_fetchers p)).
  assert (Hfilt : forall l, filter (fun j => is_sleeping (phase1_task refresh None rc mr j)) l = []).
  { induction l as [|j l IH]; simpl; [reflexivity|].
    rewrite no_sleep_without_retry_delay. exact IH. }
  assert (Hflat : forall l, flat_map (fun j => if is_sleeping (phase1_task refresh None rc mr j)
                                             then [PRefresh j 1%nat] else []) l = []).
  { induction l as [|j l IH]; simpl; [reflexivity|].
    rewrite no_sleep_without_retry_delay. exact IH. }
  rewrite Hfilt, Hflat, app_nil_r. simpl.
  split; [|split; [lia|split; [|split]]].
  - intros i a. rewrite in_flat_map. split.
    + intros (j & Hj & Hin). apply in_seq in Hj.
      apply in_phase1_events in Hin. destruct Hin as [-> ->]. split; [lia|reflexivity].
    + intros [Hi ->]. exists i. split; [apply in_seq; lia|]. apply in_phase1_events. auto.
  - intros i f Hf. rewrite nth_error_mark_from, Hf. simpl.
    unfold marked. destruct (refresh i 0%nat); simpl.
    + destruct f; simpl. rewrite orb_false_r. reflexivity.
    + rewrite orb_true_r. reflexivity.
  - apply gather_without_retry_delay.
  - intros now. apply get_token_fetcher_expiry_only. apply map_expiry_mark_from.
Qed.

(** The failing run: one member valid until 5000, retry budget 3,
    refresh_token always raising ClientError.  One call, no retry, the
    AttributeError escapes, the member is marked invalid, and
    [get_token_fetcher] still hands it out. *)
Lemma C9_failed_member_not_retried_nor_excluded_witness :
  (executor_queue_size pool_one <? executor_max_workers pool_one * 2) = true /\
  snd (fst (refresh_token_concurrently refresh_down None pool_one))
    = Raise (AttributeError "retry_delay"%string) /\
  retry_count (fst (fst (refresh_token_concurrently refresh_down None pool_one))) = 0 /\
  refresh_calls (snd (refresh_token_concurrently refresh_down None pool_one)) = 1%nat /\
  get_token_fetcher 0 (token_fetchers (fst (fst (refresh_token_concurrently refresh_down None pool_one))))
    = Some {| provider_expiry_time := 5000; invalid := true |}.
Proof.
  split; [reflexivity|].
  split.
  - pose proof (C9_failed_member_not_retried_nor_excluded refresh_down pool_one eq_refl) as H.
    revert H. cbv zeta.
    destruct (refresh_token_concurrently refresh_down None pool_one) as [[p' r] ev].
    intros (_ & _ & _ & Hr & _). simpl. rewrite Hr. vm_compute. reflexivity.
  - vm_compute. repeat split.
Defined.

End PoolFacts.

(* ================================================================== *)
(** * Construction of managers and pools *)

Module ConstructionFacts.
Import Construction.

(** C10 (construction fails).  For every configuration and start time,
    passing a successfully built DefaultTokenProvider to [TokenManager]
    raises AttributeError on [config]; [TokenFetcherPool()] never
    succeeds: it raises ValueError from the provider's executor when
    [thread_pool_size] is not positive, and AttributeError on [config]
    otherwise. *)
Theorem C10_construction_raises_attribute_error c now :
  (forall tp, DefaultTokenProvider_new c now = Ok tp ->
     TokenManager_new tp = Raise (AttributeError "config")) /\
  TokenFetcherPool_new c now
  = Raise (if Z.leb (thread_pool_size c) 0 then ValueError else AttributeError "config").
Proof.
  unfold TokenFetcherPool_new, DefaultTokenProvider_new.
  destruct (Z.leb (thread_pool_size c) 0).
  - split; [discriminate|reflexivity].
  - split; [|reflexivity]. intros tp H. injection H as <-. reflexivity.
Qed.

Lemma C10_construction_raises_attribute_error_witness :
  (exists tp, DefaultTokenProvider_new default_config 0 = Ok tp /\
              TokenManager_new tp = Raise (AttributeError "config")) /\
  TokenFetcherPool_new default_config 0 = Raise (AttributeError "config").
Proof.
  destruct (C10_construction_raises_attribute_error default_config 0) as [H1 H2].
  split; [|exact H2].
  eexists. split; [reflexivity|]. apply H1. reflexivity.
Defined.

End ConstructionFacts.

(* ================================================================== *)
(** * Further properties of the provider, the manager task, the pool
      and the configuration loader *)

Module ExtraFacts.
Import Provider Scenarios.

(** A successful refresh: when the refresh condition holds and the
    response has the token keyword and no "error", the activation returns
    the new token and installs it with expiry [now + expiry_time], last
    refresh [now] and failure count 0. *)
Theorem refresh_success_installs_token cls cfg now j w b
    (Hexp : is_token_expired cls (prov w) now = Ok b)
    (Hsr : (b || (now - last_refresh_timestamp (prov w) >? min_time_between_refreshes cfg))
           = true)
    (Herr : has_key "error" j = false)
    (Hkw : has_key (token_keyword cfg) j = true) :
  let h := match sig_cache w with
           | Some h => h
           | None => SHA256.sha256_hexdigest (current_token (prov w))
           end in
  attempt cls cfg now (Response j) w =
  AReturn (json_get (token_keyword cfg) j)
    {| prov := {| current_token := json_get (token_keyword cfg) j;
                  token_expiry_time := now + expiry_time cfg;
                  last_refresh_timestamp := now;
                  refresh_failure_count := 0 |};
       sig_cache := Some h |}
    [EPost (current_token (prov w)) h].
Proof.
  unfold attempt, should_refresh_token. rewrite Hexp. simpl. rewrite Hsr.
  unfold generate_signature. destruct (sig_cache w) eqn:Hs; simpl; rewrite Herr, Hkw; simpl;
    try rewrite Hs; reflexivity.
Qed.

Lemma refresh_success_installs_token_witness :
  prov (attempt_world (attempt ExpiringProvider_cls default_config 200
                         (Response [("token", "new")]%string) w_expired)) =
  {| current_token := "new"; token_expiry_time := 7400;
     last_refresh_timestamp := 200; refresh_failure_count := 0 |}.
Proof.
  rewrite (refresh_success_installs_token ExpiringProvider_cls default_config 200
             [("token", "new")]%string w_expired true eq_refl eq_refl eq_refl eq_refl).
  reflexivity.
Defined.

(** After [_update_current_token] at time [now] (with [now >= 0] and a
    positive [expiry_time]), TokenManager's [is_token_expired] reports
    the provider's token valid exactly up to [now + expiry_time]. *)
Theorem updated_token_valid_for_expiry_window cfg p tok now t
    (Hnow : 0 <= now) (Hexp : 0 < expiry_time cfg) :
  Pool.fetcher_is_token_expired t
    {| Pool.provider_expiry_time := token_expiry_time (update_current_token cfg p tok now);
       Pool.invalid := false |}
  = (now + expiry_time cfg <? t).
Proof.
  unfold Pool.fetcher_is_token_expired. simpl.
  replace (now + expiry_time cfg =? 0) with false by (symmetry; apply Z.eqb_neq; lia).
  rewrite Z.gtb_ltb. reflexivity.
Qed.

Lemma updated_token_valid_for_expiry_window_witness :
  Pool.fetcher_is_token_expired 7000
    {| Pool.provider_expiry_time :=
         token_expiry_time (update_current_token default_config (prov w_expired) "new" 200);
       Pool.invalid := false |} = false.
Proof.
  rewrite (updated_token_valid_for_expiry_window default_config (prov w_expired) "new"
             200 7000); [reflexivity|lia|simpl; lia].
Defined.

(** A failed activation below the failure threshold changes nothing in
    the provider's token state (token, expiry, last refresh, count); at
    most the signature cache gets filled. *)
Theorem failed_attempt_keeps_provider_state cls cfg now resp w
    (Hbelow : refresh_failure_count (prov w) < refresh_failure_attempts_threshold cfg) :
  is_return (attempt cls cfg now resp w) = false ->
  prov (attempt_world (attempt cls cfg now resp w)) = prov w.
Proof.
  unfold attempt.
  destruct (should_refresh_token cls cfg (prov w) now) as [[|]|e].
  - unfold generate_signature. destruct (sig_cache w); destruct resp; simpl;
      try (rewrite ProviderFacts.on_refresh_failure_below_threshold by exact Hbelow; reflexivity);
      ProviderFacts.break_matches; simpl; try discriminate;
      rewrite ProviderFacts.on_refresh_failure_below_threshold by exact Hbelow; reflexivity.
  - discriminate.
  - intros _. rewrite ProviderFacts.on_refresh_failure_below_threshold by exact Hbelow. reflexivity.
Qed.

Lemma failed_attempt_keeps_provider_state_witness :
  prov (attempt_world (attempt ExpiringProvider_cls default_config 200 error_response w_expired))
  = prov w_expired.
Proof.
  apply failed_attempt_keeps_provider_state; [simpl; lia|vm_compute; reflexivity].
Defined.

(** DefaultTokenProvider as shipped never sends a refresh request and
    never returns a token: [_async_refresh_token] only ever recurses or
    raises, whatever the configuration and the provider state. *)
Theorem default_provider_never_posts cfg env w :
  match async_refresh_token DefaultTokenProvider_cls cfg env w with
  | Returned _ _ _ => False
  | Raised _ _ ev | Pending _ ev => posted ev = false
  end.
Proof.
  revert w. induction env as [|[now resp] env IH]; intros w; simpl; [reflexivity|].
  unfold attempt. simpl.
  pose proof (ProviderFacts.on_refresh_failure_not_return cfg now NotImplementedError w []) as Hn.
  pose proof (ProviderFacts.on_refresh_failure_posted cfg now NotImplementedError w []) as Hp.
  destruct (on_refresh_failure cfg now NotImplementedError w []) as [t w' ev|w' ev|e w' ev];
    simpl in Hn, Hp; try discriminate; [|exact Hp].
  specialize (IH w').
  destruct (async_refresh_token DefaultTokenProvider_cls cfg env w') as [t w'' ev'|e w'' ev'|w'' ev'];
    simpl; try contradiction; unfold posted in *; rewrite existsb_app, Hp, IH; reflexivity.
Qed.

(** With the backup policy on, a truthy backup token assigned and the
    failure count at the threshold, every failed activation of a
    DefaultTokenProvider re-installs the backup token with a fresh expiry
    ([now + expiry_time] of the latest activation), keeps the count and
    the last-refresh time, and the method keeps recursing. *)
Theorem backup_token_reinstalled_each_failure cfg b w env now resp
    (Hth : refresh_failure_attempts_threshold cfg <= refresh_failure_count (prov w))
    (Hauto : auto_switch_backup_on_failure cfg = true)
    (Hb : backup_token_attr cfg = Some b) (Hbt : str_truthy b = true) :
  exists w' ev,
    async_refresh_token DefaultTokenProvider_cls cfg (env ++ [(now, resp)]) w = Pending w' ev /\
    current_token (prov w') = b /\
    token_expiry_time (prov w') = now + expiry_time cfg /\
    last_refresh_timestamp (prov w') = last_refresh_timestamp (prov w) /\
    refresh_failure_count (prov w') = refresh_failure_count (prov w).
Proof.
  assert (Hstep : forall now' resp' w0,
    refresh_failure_attempts_threshold cfg <= refresh_failure_count (prov w0) ->
    attempt DefaultTokenProvider_cls cfg now' resp' w0 =
    ARetry {| prov := {| current_token := b;
                         token_expiry_time := now' + expiry_time cfg;
                         last_refresh_timestamp := last_refresh_timestamp (prov w0);
                         refresh_failure_count := refresh_failure_count (prov w0) |};
              sig_cache := sig_cache w0 |}
           [ELogError KUnknown; ELogSwitchedToBackup]).
  { intros now' resp' w0 H0. unfold attempt. simpl. unfold on_refresh_failure.
    replace (refresh_failure_attempts_threshold cfg <=? refresh_failure_count (prov w0))
      with true by (symmetry; apply Z.leb_le; exact H0).
    rewrite Hauto. unfold get_backup_token. rewrite Hb, Hbt. reflexivity. }
  revert w Hth. induction env as [|[now' resp'] env IH]; intros w Hth; simpl.
  - rewrite (Hstep now resp w Hth). simpl. eexists _, _. split; [reflexivity|].
    simpl. repeat split.
  - rewrite (Hstep now' resp' w Hth).
    simpl. match goal with
           | |- context [async_refresh_token _ _ _ ?w1] =>
               destruct (IH w1 Hth) as (w' & ev & H1 & H2 & H3 & H4 & H5)
           end.
    rewrite H1. simpl. eexists _, _. split; [reflexivity|].
    repeat split; assumption.
Qed.

Lemma backup_token_reinstalled_each_failure_witness :
  exists w' ev,
    async_refresh_token DefaultTokenProvider_cls cfg_backup
      ([(200, error_response)] ++ [(500, error_response)])%list
      (prov_state "primary"%string 7200 0 1) = Pending w' ev /\
    current_token (prov w') = "backup"%string /\
    token_expiry_time (prov w') = 500 + expiry_time cfg_backup /\
    last_refresh_timestamp (prov w') = 0 /\
    refresh_failure_count (prov w') = 1.
Proof.
  apply (backup_token_reinstalled_each_failure cfg_backup "backup"%string
           (prov_state "primary"%string 7200 0 1) [(200, error_response)] 500 error_response);
    [simpl; lia|reflexivity|reflexivity|reflexivity].
Defined.

(** With the backup policy on, no [backup_token] attribute on the config
    object (the only state [load_config] can produce) and the failure
    count at the threshold, an activation that fails ends the call with
    AttributeError('backup_token'): [_async_refresh_token] either returns
    a token from its first activation or raises that error. *)
Theorem missing_backup_token_raises cls cfg now resp env w
    (Hth : refresh_failure_attempts_threshold cfg <= refresh_failure_count (prov w))
    (Hauto : auto_switch_backup_on_failure cfg = true)
    (Hnone : backup_token_attr cfg = None) :
  match async_refresh_token cls cfg ((now, resp) :: env) w with
  | Returned t w' ev => attempt cls cfg now resp w = AReturn t w' ev
  | Raised e _ _ => e = AttributeError "backup_token"%string
  | Pending _ _ => False
  end.
Proof.
  assert (Hfail : forall e w0 ev0,
    refresh_failure_count (prov w0) = refresh_failure_count (prov w) ->
    on_refresh_failure cfg now e w0 ev0 =
    ARaise (AttributeError "backup_token"%string) w0 (ev0 ++ [ELogError (handle_error e)])).
  { intros e w0 ev0 Hc. unfold on_refresh_failure. rewrite Hc.
    replace (refresh_failure_attempts_threshold cfg <=? refresh_failure_count (prov w))
      with true by (symmetry; apply Z.leb_le; exact Hth).
    rewrite Hauto. unfold get_backup_token. rewrite Hnone. reflexivity. }
  assert (Ha : is_return (attempt cls cfg now resp w) = true \/
               exists w' ev, attempt cls cfg now resp w
                             = ARaise (AttributeError "backup_token") w' ev).
  { unfold attempt.
    destruct (should_refresh_token cls cfg (prov w) now) as [[|]|e].
    - unfold generate_signature. destruct (sig_cache w); destruct resp as [j|e];
        ProviderFacts.break_matches;
        first [left; reflexivity | rewrite Hfail by reflexivity; right; eauto].
    - left. reflexivity.
    - rewrite Hfail by reflexivity. right. eauto. }
  simpl. destruct (attempt cls cfg now resp w) as [t w' ev|w' ev|e w' ev];
    destruct Ha as [Ha|(w1 & ev1 & Ha)]; try discriminate; auto.
  injection Ha as -> _ _. reflexivity.
Qed.

Lemma missing_backup_token_raises_witness :
  match async_refresh_token DefaultTokenProvider_cls
          {| default_token := ""%string; token_keyword := "token"%string; pool_size := 5;
             request_timeout := 3; refresh_token_check_interval := 10;
             expiry_time := 7200; min_time_between_refreshes := 300;
             max_concurrent_refreshes := 5; refresh_failure_attempts_threshold := 0;
             auto_switch_backup_on_failure := true; thread_pool_size := 10;
             backup_token_attr := None |}
          [(200, error_response)] w_primary with
  | Returned t w' ev => attempt DefaultTokenProvider_cls
          {| default_token := ""%string; token_keyword := "token"%string; pool_size := 5;
             request_timeout := 3; refresh_token_check_interval := 10;
             expiry_time := 7200; min_time_between_refreshes := 300;
             max_concurrent_refreshes := 5; refresh_failure_attempts_threshold := 0;
             auto_switch_backup_on_failure := true; thread_pool_size := 10;
             backup_token_attr := None |} 200 error_response w_primary = AReturn t w' ev
  | Raised e _ _ => e = AttributeError "backup_token"%string
  | Pending _ _ => False
  end.
Proof.
  apply missing_backup_token_raises; [simpl; lia|reflexivity|reflexivity].
Defined.

(* ------------------------------------------------------------------ *)
(** ** load_config *)

Import ConfigLoading.

Lemma lookup_map_fields (h : string * Construction.pyval -> Construction.pyval) k l :
  Construction.lookup k (map (fun fd => (fst fd, h fd)) l)
  = option_map (fun d => h (k, d)) (Construction.lookup k l).
Proof.
  induction l as [|[k' d] l IH]; simpl; [reflexivity|].
  destruct (String.eqb k' k) eqn:E; [|exact IH].
  apply String.eqb_eq in E. subst. reflexivity.
Qed.

Lemma lookup_not_field k :
  is_field k = false -> Construction.lookup k HandleTokenConfig_fields = None.
Proof.
  unfold is_field, field_names. induction HandleTokenConfig_fields as [|[k' d] l IH];
    simpl; [reflexivity|].
  rewrite String.eqb_sym. destruct (String.eqb k' k); [discriminate|exact IH].
Qed.

Lemma lookup_app k l1 l2 :
  Construction.lookup k (l1 ++ l2)
  = match Construction.lookup k l1 with
    | Some v => Some v
    | None => Construction.lookup k l2
    end.
Proof.
  induction l1 as [|[k' d] l1 IH]; simpl; [reflexivity|].
  destruct (String.eqb k' k); [reflexivity|exact IH].
Qed.

Lemma lookup_not_dunder k l :
  forallb (fun kv => is_dunder (fst kv)) l = true -> is_dunder k = false ->
  Construction.lookup k l = None.
Proof.
  intros Hl Hk. induction l as [|[k' d] l IH]; simpl in *; [reflexivity|].
  apply andb_prop in Hl. destruct Hl as [H1 H2].
  destruct (String.eqb k' k) eqn:E; [|exact (IH H2)].
  apply String.eqb_eq in E. subst. congruence.
Qed.

(** Whatever handle_token_config.json holds, the object [load_config]
    returns has no attribute but the HandleTokenConfig fields and its
    class's dunder attributes: reading any other name (such as
    backup_token, max_retry or retry_delay, which token_handler.py reads)
    raises AttributeError. *)
Theorem load_config_only_fields class_attrs file k
    (Hcls : forallb (fun kv => is_dunder (fst kv)) class_attrs = true)
    (Hk : is_field k = false) (Hdunder : is_dunder k = false) :
  Construction.getattr (load_config class_attrs file) k = Raise (AttributeError k).
Proof.
  unfold load_config.
  destruct file as [kw|];
    [unfold HandleTokenConfig_new; destruct (forallb _ kw)|];
    unfold default_object, Construction.getattr;
    rewrite lookup_app, ?lookup_map_fields, lookup_not_field by exact Hk; simpl;
    rewrite lookup_not_dunder by assumption; reflexivity.
Qed.

Lemma load_config_only_fields_witness :
  Construction.getattr (load_config ConfigLoading.sample_class_attrs
                          (Some [("pool_size"%string, Construction.PyNum 8)]%string))
    "retry_delay"%string = Raise (AttributeError "retry_delay"%string).
Proof. apply load_config_only_fields; reflexivity. Defined.

(** One key of the JSON file that is not a HandleTokenConfig field makes
    [load_config] return the all-defaults object: every other value of the
    file is dropped. *)
Theorem load_config_unknown_key_defaults class_attrs kw
    (Hunk : existsb (fun kv => negb (is_field (fst kv))) kw = true) :
  load_config class_attrs (Some kw) = default_object class_attrs.
Proof.
  simpl. unfold HandleTokenConfig_new.
  destruct (forallb (fun kv => is_field (fst kv)) kw) eqn:E; [|reflexivity].
  exfalso. apply existsb_exists in Hunk. destruct Hunk as [kv [Hin Hkv]].
  rewrite forallb_forall in E. rewrite (E kv Hin) in Hkv. discriminate.
Qed.

Lemma load_config_unknown_key_defaults_witness :
  load_config ConfigLoading.sample_class_attrs
    (Some [("pool_size"%string, Construction.PyNum 8);
           ("backup_token"%string, Construction.PyStr "b"%string)]%string)
  = default_object ConfigLoading.sample_class_attrs.
Proof. apply load_config_unknown_key_defaults. reflexivity. Defined.

(** When every key of the JSON file is a field, each field of the loaded
    object reads as the file's value, or as the class default when the
    file leaves it out (attrs checks no types). *)
Theorem load_config_known_keys class_attrs kw k d
    (Hall : forallb (fun kv => is_field (fst kv)) kw = true)
    (Hd : Construction.lookup k HandleTokenConfig_fields = Some d) :
  Construction.getattr (load_config class_attrs (Some kw)) k
  = Ok (match Construction.lookup k kw with Some v => v | None => d end).
Proof.
  unfold load_config, HandleTokenConfig_new. rewrite Hall.
  unfold Construction.getattr. rewrite lookup_app, lookup_map_fields, Hd. reflexivity.
Qed.

Lemma load_config_known_keys_witness :
  Construction.getattr (load_config ConfigLoading.sample_class_attrs
                          (Some [("pool_size"%string, Construction.PyNum 8)]%string))
    "expiry_time"%string = Ok (Construction.PyNum 7200) /\
  Construction.getattr (load_config ConfigLoading.sample_class_attrs
                          (Some [("pool_size"%string, Construction.PyNum 8)]%string))
    "pool_size"%string = Ok (Construction.PyNum 8).
Proof.
  split.
  - rewrite (load_config_known_keys ConfigLoading.sample_class_attrs
               [("pool_size", Construction.PyNum 8)]%string
               "expiry_time"%string (Construction.PyNum 7200) eq_refl eq_refl).
    reflexivity.
  - rewrite (load_config_known_keys ConfigLoading.sample_class_attrs
               [("pool_size", Construction.PyNum 8)]%string
               "pool_size"%string (Construction.PyNum 5) eq_refl eq_refl).
    reflexivity.
Defined.

(* ------------------------------------------------------------------ *)
(** ** TokenFetcherPool *)

Import Pool.

(** [release_token_fetcher]: a member is left alone (no refresh); a
    fetcher that is not a member gets exactly one [refresh_token()] call,
    whose exception is caught, and is appended at the end of the pool;
    releasing it again is then a no-op. *)
Theorem release_token_fetcher_appends_once members f r :
  (In f members -> release_token_fetcher members f r = (members, [])) /\
  (~ In f members ->
     fst (release_token_fetcher members f r) = (members ++ [f])%list /\
     refresh_calls (snd (release_token_fetcher members f r)) = 1%nat) /\
  (forall r', release_token_fetcher (fst (release_token_fetcher members f r)) f r'
              = (fst (release_token_fetcher members f r), [])).
Proof.
  assert (Hmem : forall l, existsb (Nat.eqb f) l = true <-> In f l).
  { intros l. rewrite existsb_exists. split.
    - intros [x [Hx E]]. apply Nat.eqb_eq in E. subst. exact Hx.
    - intros H. exists f. split; [exact H|apply Nat.eqb_refl]. }
  unfold release_token_fetcher.
  destruct (existsb (Nat.eqb f) members) eqn:E.
  - split; [reflexivity|]. split.
    + intros H. exfalso. apply H, Hmem, E.
    + intros r'. simpl. rewrite E. reflexivity.
  - split; [intros H; apply Hmem in H; congruence|]. split.
    + intros _. split; [reflexivity|]. destruct r; reflexivity.
    + intros r'. simpl.
      replace (existsb (Nat.eqb f) (members ++ [f])) with true; [reflexivity|].
      symmetry. apply Hmem, in_or_app. right. left. reflexivity.
Qed.

Lemma release_token_fetcher_appends_once_witness :
  release_token_fetcher [0; 1]%nat 1 (Raise ClientError) = ([0; 1]%nat, []) /\
  fst (release_token_fetcher [0; 1]%nat 2 (Raise ClientError)) = [0; 1; 2]%nat /\
  refresh_calls (snd (release_token_fetcher [0; 1]%nat 2 (Raise ClientError))) = 1%nat.
Proof.
  destruct (release_token_fetcher_appends_once [0; 1]%nat 1 (Raise ClientError)) as [H1 _].
  destruct (release_token_fetcher_appends_once [0; 1]%nat 2 (Raise ClientError)) as [_ [H2 _]].
  split; [apply H1; simpl; auto|]. apply H2. simpl. intuition discriminate.
Defined.

Lemma phase1_task_exhausted refresh rd rc mr j :
  (rc <? mr) = false ->
  resume refresh j (phase1_task refresh rd rc mr j) = phase1_task refresh rd rc mr j /\
  is_sleeping (phase1_task refresh rd rc mr j) = false /\
  exists v, phase1_task refresh rd rc mr j = TDone (Ok v).
Proof.
  intros H. unfold phase1_task, retry_branch.
  destruct (refresh j 0%nat); [|rewrite H]; eauto.
Qed.

(** Once the pool-wide retry budget is used up ([_retry_count >=
    _max_retry]), an admitted [refresh_token_concurrently] calls
    [refresh_token()] exactly once per member, retries nothing, leaves
    [_retry_count] as it is and raises nothing: the failures are caught
    and give None. *)
Theorem exhausted_retry_budget_no_retry refresh retry_delay p
    (Hadm : can_refresh_concurrently p = true)
    (Hex : max_retry p <= retry_count p) :
  let '(p', r, ev) := refresh_token_concurrently refresh retry_delay p in
  refresh_calls ev = List.length (token_fetchers p) /\
  retry_count p' = retry_count p /\
  is_raise r = false.
Proof.
  assert (Hlt : (retry_count p <? max_retry p) = false) by (apply Z.ltb_ge; exact Hex).
  unfold refresh_token_concurrently. rewrite Hadm, PoolFacts.phase1_eq.
  change (map (phase1_task refresh retry_delay (retry_count p) (max_retry p))
              (seq 0 (List.length (token_fetchers p))))
    with (map (phase1_task refresh retry_delay (retry_count p) (max_retry p))
              (seq 0 (List.length (token_fetchers p)))).
  rewrite PoolFacts.phase2_eq.
  assert (Hfilt : forall l, filter (fun j => is_sleeping
                     (phase1_task refresh retry_delay (retry_count p) (max_retry p) j)) l = []).
  { induction l as [|j l IH]; simpl; [reflexivity|].
    destruct (phase1_task_exhausted refresh retry_delay _ _ j Hlt) as [_ [-> _]]. exact IH. }
  assert (Hflat : forall l, flat_map (fun j => if is_sleeping
                     (phase1_task refresh retry_delay (retry_count p) (max_retry p) j)
                     then [PRefresh j 1] else []) l = []).
  { induction l as [|j l IH]; simpl; [reflexivity|].
    destruct (phase1_task_exhausted refresh retry_delay _ _ j Hlt) as [_ [-> _]]. exact IH. }
  assert (Hgather : forall l, is_raise (gather (map (fun j => resume refresh j
                     (phase1_task refresh retry_delay (retry_count p) (max_retry p) j)) l)) = false).
  { induction l as [|j l IH]; simpl; [reflexivity|].
    destruct (phase1_task_exhausted refresh retry_delay _ _ j Hlt) as [-> [_ [v ->]]].
    destruct (gather _); simpl in *; [reflexivity|discriminate]. }
  rewrite Hfilt, Hflat. simpl.
  split; [|split; [lia|apply Hgather]].
  rewrite PoolFacts.refresh_calls_app, PoolFacts.refresh_calls_phase1. apply Nat.add_0_r.
Qed.

Lemma exhausted_retry_budget_no_retry_witness :
  refresh_calls (snd (refresh_token_concurrently Scenarios.refresh_down None pool_busy)) = 5%nat /\
  retry_count (fst (fst (refresh_token_concurrently Scenarios.refresh_down None pool_busy))) = 0 /\
  is_raise (snd (fst (refresh_token_concurrently Scenarios.refresh_down None pool_busy))) = false.
Proof.
  pose proof (exhausted_retry_budget_no_retry Scenarios.refresh_down None Scenarios.pool_busy
                eq_refl ltac:(simpl; lia)) as H.
  destruct (refresh_token_concurrently Scenarios.refresh_down None pool_busy) as [[p' r] ev].
  simpl. exact H.
Defined.

(** Members that share one provider (as the members [__init__] builds
    all do) have the same expiry: [get_token_fetcher] then returns the
    first member, or None when the shared token is expired. *)
Theorem get_token_fetcher_shared_provider now f fs
    (Hshared : Forall (fun g => provider_expiry_time g = provider_expiry_time f) fs) :
  get_token_fetcher now (f :: fs)
  = if fetcher_is_token_expired now f then None else Some f.
Proof.
  simpl. destruct (fetcher_is_token_expired now f) eqn:E; simpl; [|reflexivity].
  induction Hshared as [|g fs Hg _ IH]; simpl; [reflexivity|].
  replace (fetcher_is_token_expired now g) with true; [exact IH|].
  rewrite <- E. unfold fetcher_is_token_expired. rewrite Hg. reflexivity.
Qed.

Lemma get_token_fetcher_shared_provider_witness :
  get_token_fetcher 6000 (repeat Scenarios.valid_member 5) = None.
Proof.
  apply (get_token_fetcher_shared_provider 6000 Scenarios.valid_member
           (repeat Scenarios.valid_member 4)).
  repeat constructor.
Defined.

(* ------------------------------------------------------------------ *)
(** ** TokenManager *)

Import AutoRefresh.

(** [_auto_refresh_token] over a DefaultTokenProvider (which has no
    [config] attribute), below the failure threshold: an iteration either
    stays suspended in the provider refresh forever or ends the task with
    AttributeError('config') at its sleep; the cached token, the provider
    and the [on_token_updated] callback are never touched. *)
Theorem auto_refresh_default_provider_inert cfg env has_cb cached w now
    (Hbelow : refresh_failure_count (prov w) < refresh_failure_attempts_threshold cfg) :
  match auto_refresh_tick DefaultTokenProvider_cls cfg env None has_cb cached w now with
  | TickSleep _ _ _ _ => False
  | TickRaise e c w' n => e = AttributeError "config"%string /\ c = cached /\ w' = w /\ n = []
  | TickPending w' => w' = w
  end.
Proof.
  unfold auto_refresh_tick.
  destruct (Pool.fetcher_is_token_expired _ _); [|auto].
  destruct (ProviderFacts.default_provider_pending cfg env w Hbelow) as [ev ->].
  reflexivity.
Qed.

Lemma auto_refresh_default_provider_inert_witness :
  match auto_refresh_tick DefaultTokenProvider_cls default_config [(200, token_response)]
          None true (Some "old"%string) w_expired 200 with
  | TickSleep _ _ _ _ => False
  | TickRaise e c w' n => e = AttributeError "config"%string /\ c = Some "old"%string /\ w' = w_expired /\ n = []
  | TickPending w' => w' = w_expired
  end.
Proof. apply auto_refresh_default_provider_inert. simpl. lia. Defined.

(** One iteration of [_auto_refresh_token] with a readable check
    interval always ends in the sleep (refresh errors are caught), and
    the cached token changes only to a truthy token returned by the
    provider refresh, which is also the only time the callback is called. *)
Theorem auto_refresh_tick_updates_only_on_token cls cfg env i has_cb cached w now :
  match auto_refresh_tick cls cfg env (Some i) has_cb cached w now with
  | TickSleep c _ n i' =>
      i' = i /\
      ((c = cached /\ n = []) \/
       exists t w' ev, async_refresh_token cls cfg env w = Returned t w' ev /\
         str_truthy t = true /\ c = Some t /\ n = (if has_cb then [t] else []))
  | TickRaise _ _ _ _ => False
  | TickPending _ => True
  end.
Proof.
  unfold auto_refresh_tick.
  destruct (Pool.fetcher_is_token_expired _ _); [|auto].
  destruct (async_refresh_token cls cfg env w) as [t w' ev|e w' ev|w' ev] eqn:E; auto.
  destruct (str_truthy t) eqn:Et; split; auto.
  right. exists t, w', ev. auto.
Qed.

Import Manager.

(** [get_token] on a manager holding a cached token whose provider's
    [is_token_expired] raises: the exception propagates and [lru_cache]
    stores nothing, so the manager is left as it was and every later call
    raises again. *)
Theorem get_token_raising_expiry_check {PS} (pi : ProviderIface PS) m now e c
    (Hmiss : get_token_cache m = None)
    (Hcached : cached_current_token m = Some c)
    (Hraise : p_is_token_expired pi (token_provider m) now = Raise e) :
  get_token pi m now = (m, Raise e, []).
Proof.
  unfold get_token, get_token_body. rewrite Hmiss, Hcached. simpl. rewrite Hraise.
  reflexivity.
Qed.

Lemma get_token_raising_expiry_check_witness :
  get_token {| p_is_token_expired := fun (_ : Z * nat) _ => Raise NotImplementedError;
               p_refresh_token := fun ps _ => (ps, Ok (Some "fresh"%string)) |}
            Scenarios.m_old 200 = (Scenarios.m_old, Raise NotImplementedError, []).
Proof. apply get_token_raising_expiry_check with (c := "old"%string); reflexivity. Defined.

End ExtraFacts.

